(** * Prompt conversion: evals/prompt/base.py

    A shallow embedding of the chat/text prompt converters of
    [evals/prompt/base.py] and the properties its specification states
    about them.

    Python is dynamically typed, so the functions below take and return
    Python values ([pyval]); a raised exception is the [Raise] branch of
    [result].  A [str] is a Rocq [string], read as the sequence of its
    characters (code points below 256). *)

From Stdlib Require Import Ascii String.
From stdpp Require Import gmap strings list fin_maps.

Local Open Scope string_scope.
Set Warnings "-register-all".

(** ** Values *)

(** What a message stores under a key: the source declares a message as
    [Dict[str, str]] and reads its optional entries as [Optional[Text]]. *)
Inductive field : Type :=
| FNone
| FStr (s : string).

(** The values a prompt can be: the members of [OpenAICreatePrompt]
    (strings, lists of strings, of ints, of lists of ints) and of
    [OpenAICreateChatPrompt] (lists of dicts). *)
Inductive pyval : Type :=
| PNone
| PInt (z : Z)
| PStr (s : string)
| PList (l : list pyval)
| PDict (m : gmap string field).

Definition inject (v : field) : pyval :=
  match v with
  | FNone => PNone
  | FStr s => PStr s
  end.

(** ** Exceptions *)

(** [AssertionError] is what a failed [assert] raises; the specification
    calls it InvalidInput. *)
Inductive exn : Type :=
| AssertionError
| KeyError
| IndexError
| AttributeError
| TypeError.

Inductive result (A : Type) : Type :=
| Ok (a : A)
| Raise (e : exn).

Arguments Ok {A} a.
Arguments Raise {A} e.

#[global] Instance result_ret : MRet result := fun _ a => Ok a.
#[global] Instance result_bind : MBind result := fun _ _ k r =>
  match r with
  | Ok a => k a
  | Raise e => Raise e
  end.
#[global] Instance result_fmap : FMap result := fun _ _ f r =>
  match r with
  | Ok a => Ok (f a)
  | Raise e => Raise e
  end.

(** ** Python primitives used by the module *)

(** [isinstance(v, dict)], [isinstance(v, str)] *)
Definition is_dict (v : pyval) : bool :=
  match v with
  | PDict _ => true
  | _ => false
  end.

Definition is_str (v : pyval) : bool :=
  match v with
  | PStr _ => true
  | _ => false
  end.

(** [msg.get(key)]: only a dict has the method. *)
Definition py_get (msg : pyval) (key : string) : result field :=
  match msg with
  | PDict m => Ok (default FNone (m !! key))
  | _ => Raise AttributeError
  end.

(** [msg[key]] with a string key: a missing key of a dict is a [KeyError],
    any other receiver rejects the subscript with a [TypeError]. *)
Definition py_getitem (msg : pyval) (key : string) : result field :=
  match msg with
  | PDict m =>
      match m !! key with
      | Some v => Ok v
      | None => Raise KeyError
      end
  | _ => Raise TypeError
  end.

(** [prompt[i]] on a list *)
Definition list_getitem (l : list pyval) (i : nat) : result pyval :=
  match l !! i with
  | Some v => Ok v
  | None => Raise IndexError
  end.

(** [f"{v}"] *)
Definition format_field (v : field) : string :=
  match v with
  | FNone => "None"
  | FStr s => s
  end.

(** [role == "literal"] *)
Definition field_eqb (v : field) (s : string) : bool :=
  match v with
  | FStr r => String.eqb r s
  | FNone => false
  end.

Definition nl : string := String "010"%char "".

(** [sep.join(lines)] *)
Definition join (sep : string) (lines : list string) : string :=
  String.concat sep lines.

(** The characters [str.lstrip()] removes: the white space of
    [str.isspace] among the code points below 256. *)
Definition is_space (c : ascii) : bool :=
  let n := N_of_ascii c in
  ((9 <=? n) && (n <=? 13) || (28 <=? n) && (n <=? 32)
   || (n =? 133) || (n =? 160))%N.

Fixpoint lstrip (s : string) : string :=
  match s with
  | EmptyString => EmptyString
  | String c s' => if is_space c then lstrip s' else s
  end.

(** Truth value of a string: non-empty. *)
Definition truthy (s : string) : bool :=
  match s with
  | EmptyString => false
  | String _ _ => true
  end.

(** An ASCII [str.capitalize]: first letter upper case, the others lower
    case.  The development is parametric in the case mapping (see the
    section below); this instance runs it. *)
Definition upper (c : ascii) : ascii :=
  let n := N_of_ascii c in
  if ((97 <=? n) && (n <=? 122))%N then ascii_of_N (n - 32) else c.

Definition lower (c : ascii) : ascii :=
  let n := N_of_ascii c in
  if ((65 <=? n) && (n <=? 90))%N then ascii_of_N (n + 32) else c.

Fixpoint map_string (f : ascii -> ascii) (s : string) : string :=
  match s with
  | EmptyString => EmptyString
  | String c s' => String (f c) (map_string f s')
  end.

Definition ascii_capitalize (s : string) : string :=
  match s with
  | EmptyString => EmptyString
  | String c s' => String (upper c) (map_string lower s')
  end.

(** ** The module *)

(** [is_chat_prompt] *)
Definition is_chat_prompt (prompt : pyval) : bool :=
  match prompt with
  | PList l => forallb is_dict l
  | _ => false
  end.

(** The table local to [chat_prompt_to_text_prompt]. *)
Definition chat_to_prefixes : gmap string string :=
  {[ "system" := "";
     "user" := "User";
     "assistant" := "Assistant";
     "example_user" := "User";
     "example_assistant" := "Assistant";
     "tool" := "Tool" ]}.

(** [chat_to_prefixes[key]] *)
Definition prefixes_getitem (key : string) : result string :=
  match chat_to_prefixes !! key with
  | Some v => Ok v
  | None => Raise KeyError
  end.

(** [text_prompt_to_chat_prompt] *)
Definition text_prompt_to_chat_prompt (prompt : pyval) : result pyval :=
  match prompt with
  | PStr s =>
      Ok (PList [PDict {[ "role" := FStr "system"; "content" := FStr s ]}])
  | _ => Raise AssertionError
  end.

(** The body of the loop of [_prepare_chat_prompt]: one message is
    examined and one message is appended to [prompts]. *)
Definition prepare_step (prompts : list pyval) (msg : pyval)
  : result (list pyval) :=
  role ← py_getitem msg "role";
  content ← py_getitem msg "content";
  if field_eqb role "tool" then
    name ← py_get msg "name";
    let content_prefix := "" in
    let content_prefix :=
      match name with
      | FStr n => content_prefix +:+ "Tool (" +:+ n +:+ "): "
      | FNone => content_prefix
      end in
    let updated_message :=
      PDict {[ "role" := FStr "assistant";
               "content" := FStr (content_prefix +:+ format_field content) ]} in
    Ok (prompts ++ [updated_message])%list
  else if field_eqb role "assistant" then
    recipient ← py_get msg "recipient";
    match recipient with
    | FStr r =>
        let updated_message :=
          PDict {[ "role" := FStr "assistant";
                   "content" :=
                     FStr ("To " +:+ r +:+ ": " +:+ format_field content) ]} in
        Ok (prompts ++ [updated_message])%list
    | FNone => Ok (prompts ++ [msg])%list
    end
  else Ok (prompts ++ [msg])%list.

(** The loop itself: [prompts] is the list built so far, [prompt] what is
    left to visit; an exception leaves the loop at once. *)
Fixpoint prepare_loop (prompts : list pyval) (prompt : list pyval)
  : result (list pyval) :=
  match prompt with
  | [] => Ok prompts
  | msg :: rest =>
      prompts' ← prepare_step prompts msg;
      prepare_loop prompts' rest
  end.

(** [_prepare_chat_prompt]: its argument is a list (its one caller has
    checked [is_chat_prompt]). *)
Definition _prepare_chat_prompt (prompt : list pyval) : result (list pyval) :=
  prepare_loop [] prompt.

(** The class [ChatCompletionPrompt]; an instance is its [raw_prompt]. *)
Module ChatCompletionPrompt.

Definition _render_text_as_chat_prompt (prompt : pyval) : result pyval :=
  text_prompt_to_chat_prompt prompt.

Definition to_openai_create_prompt (raw_prompt : pyval) : result pyval :=
  if is_chat_prompt raw_prompt then
    match raw_prompt with
    | PList l => PList <$> _prepare_chat_prompt l
    | _ => Raise TypeError
    end
  else _render_text_as_chat_prompt raw_prompt.

End ChatCompletionPrompt.

Section Render.

(** [str.capitalize]: Python's case mapping, which is Unicode's. *)
Variable capitalize : string -> string.

(** The body of the loop of [chat_prompt_to_text_prompt]: the line
    rendered for one message.  The default passed to
    [chat_to_prefixes.get] is evaluated before the call, so
    [role.capitalize()] runs for every message. *)
Definition render_line (msg : pyval) : result string :=
  role ← py_get msg "role";
  name ← py_get msg "name";
  receiver ← py_get msg "recipient";
  match role with
  | FNone => Raise AttributeError
  | FStr r =>
      let prefix := default (capitalize r) (chat_to_prefixes !! r) in
      let prefix :=
        match name with
        | FStr n => prefix +:+ " (" +:+ n +:+ ")"
        | FNone => prefix
        end in
      let prefix :=
        match receiver with
        | FStr rc =>
            let mapped_receiver := default rc (chat_to_prefixes !! rc) in
            prefix +:+ " -> " +:+ mapped_receiver
        | FNone => prefix
        end in
      let prefix := if truthy prefix then prefix +:+ ": " else prefix in
      content ← py_getitem msg "content";
      Ok (prefix +:+ format_field content)
  end.

Fixpoint render_loop (lines : list string) (prompt : list pyval)
  : result (list string) :=
  match prompt with
  | [] => Ok lines
  | msg :: rest =>
      line ← render_line msg;
      render_loop (lines ++ [line])%list rest
  end.

(** [chat_prompt_to_text_prompt] *)
Definition chat_prompt_to_text_prompt (prompt : pyval) : result pyval :=
  if negb (is_chat_prompt prompt) then Raise AssertionError else
  match prompt with
  | PList l =>
      if (List.length l =? 1)%nat then
        msg ← list_getitem l 0;
        inject <$> py_getitem msg "content"
      else
        lines ← render_loop [] l;
        let text := join nl lines in
        marker ← prefixes_getitem "assistant";
        let text := text +:+ marker +:+ ": " in
        Ok (PStr (lstrip text))
  | _ => Raise TypeError
  end.

End Render.

(** The class [CompletionPrompt]; an instance is its [raw_prompt]. *)
Module CompletionPrompt.

Definition _render_chat_prompt_as_text (capitalize : string -> string)
  (prompt : pyval) : result pyval :=
  chat_prompt_to_text_prompt capitalize prompt.

Definition to_openai_create_prompt (capitalize : string -> string)
  (raw_prompt : pyval) : result pyval :=
  if is_chat_prompt raw_prompt then
    _render_chat_prompt_as_text capitalize raw_prompt
  else Ok raw_prompt.

End CompletionPrompt.

(** ** Well-formed messages

    The data model of the specification gives every message a [role] and
    a [content]; these predicates say how much of that a dict has. *)

Definition has_role (m : gmap string field) : Prop := is_Some (m !! "role").

Definition has_content (m : gmap string field) : Prop :=
  is_Some (m !! "content").

Definition has_str_role (m : gmap string field) : Prop :=
  ∃ r, m !! "role" = Some (FStr r).

(** What [_prepare_chat_prompt] needs of a message, and what the loop of
    [chat_prompt_to_text_prompt] needs. *)
Definition preparable (m : gmap string field) : Prop :=
  has_role m ∧ has_content m.

Definition renderable (m : gmap string field) : Prop :=
  has_str_role m ∧ has_content m.

(** A chat prompt as a Python value. *)
Definition chat (msgs : list (gmap string field)) : pyval :=
  PList (PDict <$> msgs).

(** [x] is what the loop of [_prepare_chat_prompt] appends for [m]. *)
Definition appended_for (m : gmap string field) (x : pyval) : Prop :=
  prepare_step [] (PDict m) = Ok [x].

(** The messages of the examples of the specification. *)
Definition msg_user_hi : gmap string field :=
  {[ "role" := FStr "user"; "content" := FStr "Hi" ]}.

Definition msg_assistant_hello : gmap string field :=
  {[ "role" := FStr "assistant"; "content" := FStr "Hello" ]}.

Definition msg_tool_calc : gmap string field :=
  {[ "role" := FStr "tool"; "name" := FStr "calc"; "content" := FStr "4" ]}.

Definition msg_to_user : gmap string field :=
  {[ "role" := FStr "assistant"; "recipient" := FStr "user";
     "content" := FStr "hi" ]}.

(** A message on which the loop of [_prepare_chat_prompt] takes neither
    of its two rewriting branches. *)
Definition settled (m : gmap string field) : Prop :=
  m !! "role" ≠ Some (FStr "tool")
  ∧ (m !! "role" = Some (FStr "assistant") →
     ∀ r, m !! "recipient" ≠ Some (FStr r)).

(** The first character of [s] is one that [lstrip] removes. *)
Definition starts_with_space (s : string) : bool :=
  match s with
  | EmptyString => false
  | String c _ => is_space c
  end.

(** * Properties *)

(** ** The structural predicate *)

Lemma is_chat_prompt_chat msgs : is_chat_prompt (chat msgs) = true.
Proof. induction msgs as [|m msgs IH]; [done|]. exact IH. Qed.

#[global] Instance has_str_role_dec m : Decision (has_str_role m).
Proof.
  unfold has_str_role. destruct (m !! "role") as [[|r]|].
  - right. by intros [? ?].
  - left. by exists r.
  - right. by intros [? ?].
Defined.

#[global] Instance has_content_dec m : Decision (has_content m).
Proof. unfold has_content. apply _. Defined.

#[global] Instance renderable_dec m : Decision (renderable m).
Proof. unfold renderable. apply _. Defined.

(** ** The normalizer, one message at a time *)

Lemma prepare_step_app prompts msg :
  prepare_step prompts msg = (prompts ++.) <$> prepare_step [] msg.
Proof.
  unfold prepare_step.
  destruct (py_getitem msg "role") as [role|]; [|done]. cbn.
  destruct (py_getitem msg "content") as [content|]; [|done]. cbn.
  destruct (field_eqb role "tool").
  { destruct (py_get msg "name") as [name|]; done. }
  destruct (field_eqb role "assistant"); [|done].
  destruct (py_get msg "recipient") as [[|r]|]; done.
Qed.

Lemma prepare_step_total m :
  preparable m → ∃ x, appended_for m x.
Proof.
  intros [[role Hr] [content Hc]]. unfold appended_for, prepare_step. cbn.
  rewrite Hr, Hc. cbn.
  destruct (field_eqb role "tool"); [eauto|].
  destruct (field_eqb role "assistant"); [|eauto].
  destruct (default FNone (m !! "recipient")); eauto.
Qed.

Lemma prepare_loop_cons prompts msg rest :
  prepare_loop prompts (msg :: rest)
  = prepare_step prompts msg ≫= λ prompts', prepare_loop prompts' rest.
Proof. reflexivity. Qed.

Lemma prepare_loop_spec msgs :
  Forall preparable msgs →
  ∀ prompts, ∃ out,
    prepare_loop prompts (PDict <$> msgs) = Ok (prompts ++ out)%list
    ∧ Forall2 appended_for msgs out.
Proof.
  induction 1 as [|m msgs Hm _ IH]; intros prompts.
  - exists []. by rewrite app_nil_r.
  - destruct (prepare_step_total m Hm) as [x Hx].
    destruct (IH (prompts ++ [x])%list) as (out & Hout & Hall).
    exists (x :: out). split; [|by constructor].
    unfold appended_for in Hx.
    rewrite fmap_cons, prepare_loop_cons, prepare_step_app, Hx. cbn.
    by rewrite Hout, <- app_assoc.
Qed.

Lemma prepare_chat_prompt_spec msgs :
  Forall preparable msgs →
  ∃ out, _prepare_chat_prompt (PDict <$> msgs) = Ok out
         ∧ Forall2 appended_for msgs out.
Proof. intros H. apply (prepare_loop_spec msgs H []). Qed.

Lemma field_eqb_true v s : field_eqb v s = true ↔ v = FStr s.
Proof.
  destruct v as [|r]; cbn; [done|].
  rewrite String.eqb_eq. split; [by intros ->|by intros [= ->]].
Qed.

Lemma field_eqb_false v s : field_eqb v s = false ↔ v ≠ FStr s.
Proof.
  rewrite <- field_eqb_true. by destruct (field_eqb v s).
Qed.

Lemma appended_tool m c x :
  m !! "role" = Some (FStr "tool") →
  m !! "content" = Some c →
  appended_for m x →
  x = PDict {[ "role" := FStr "assistant";
               "content" :=
                 FStr (match default FNone (m !! "name") with
                       | FStr n => "Tool (" +:+ n +:+ "): "
                       | FNone => ""
                       end +:+ format_field c) ]}.
Proof.
  intros Hr Hc. unfold appended_for, prepare_step. cbn.
  rewrite Hr, Hc. cbn.
  destruct (default FNone (m !! "name")); by intros [= <-].
Qed.

Lemma appended_to_recipient m c r x :
  m !! "role" = Some (FStr "assistant") →
  m !! "content" = Some c →
  m !! "recipient" = Some (FStr r) →
  appended_for m x →
  x = PDict {[ "role" := FStr "assistant";
               "content" := FStr ("To " +:+ r +:+ ": " +:+ format_field c) ]}.
Proof.
  intros Hr Hc Hrc. unfold appended_for, prepare_step. cbn.
  rewrite Hr, Hc, Hrc. cbn. by intros [= <-].
Qed.

Lemma appended_unchanged m x :
  m !! "role" ≠ Some (FStr "tool") →
  (m !! "role" = Some (FStr "assistant") →
   ∀ r, m !! "recipient" ≠ Some (FStr r)) →
  appended_for m x →
  x = PDict m.
Proof.
  intros Htool Hrc. unfold appended_for, prepare_step. cbn.
  destruct (m !! "role") as [role|] eqn:Hr; [|done]. cbn.
  destruct (m !! "content") as [content|]; [|done]. cbn.
  destruct (field_eqb role "tool") eqn:E1.
  { apply field_eqb_true in E1. by subst role. }
  destruct (field_eqb role "assistant") eqn:E2; [|by intros [= <-]].
  apply field_eqb_true in E2. subst role.
  destruct (m !! "recipient") as [[|r]|] eqn:Hm; cbn.
  - by intros [= <-].
  - by destruct (Hrc eq_refl r).
  - by intros [= <-].
Qed.

Lemma appended_is_dict m x : appended_for m x → is_dict x = true.
Proof.
  unfold appended_for, prepare_step. cbn.
  destruct (m !! "role") as [role|]; [|done]. cbn.
  destruct (m !! "content") as [content|]; [|done]. cbn.
  destruct (field_eqb role "tool"); [by intros [= <-]|].
  destruct (field_eqb role "assistant"); [|by intros [= <-]].
  destruct (default FNone (m !! "recipient")); by intros [= <-].
Qed.

Lemma appended_all_dicts msgs out :
  Forall2 appended_for msgs out → is_chat_prompt (PList out) = true.
Proof.
  induction 1 as [|m x msgs out Hx _ IH]; [done|].
  cbn. by rewrite (appended_is_dict m x Hx).
Qed.

(** ** The renderer, one message at a time *)

Section RenderFacts.

Variable capitalize : string -> string.

Lemma render_line_ok m :
  renderable m → ∃ line, render_line capitalize (PDict m) = Ok line.
Proof.
  intros [[r Hr] [c Hc]]. unfold render_line. cbn. rewrite Hr, Hc. cbn.
  eauto.
Qed.

Lemma render_line_no_role m :
  ¬ has_str_role m → render_line capitalize (PDict m) = Raise AttributeError.
Proof.
  intros Hno. unfold render_line. cbn.
  destruct (m !! "role") as [[|r]|] eqn:Hr; cbn; try done.
  destruct Hno. by exists r.
Qed.

Lemma render_line_no_content m :
  has_str_role m → ¬ has_content m →
  render_line capitalize (PDict m) = Raise KeyError.
Proof.
  intros [r Hr] Hno. unfold render_line. cbn. rewrite Hr. cbn.
  destruct (m !! "content") as [c|] eqn:Hc; [|done].
  destruct Hno. by exists c.
Qed.

Lemma render_loop_cons lines msg rest :
  render_loop capitalize lines (msg :: rest)
  = render_line capitalize msg ≫= λ line,
      render_loop capitalize (lines ++ [line])%list rest.
Proof. reflexivity. Qed.

Lemma render_loop_ok msgs :
  Forall renderable msgs →
  ∀ lines, ∃ lines',
    render_loop capitalize lines (PDict <$> msgs) = Ok lines'.
Proof.
  induction 1 as [|m msgs Hm _ IH]; intros lines; [by exists lines|].
  destruct (render_line_ok m Hm) as [line Hline].
  rewrite fmap_cons, render_loop_cons, Hline. apply IH.
Qed.

(** The first message that cannot be rendered decides the exception. *)
Lemma render_loop_raise msgs :
  Exists (λ m, ¬ renderable m) msgs →
  ∀ lines,
    render_loop capitalize lines (PDict <$> msgs) = Raise AttributeError
    ∨ render_loop capitalize lines (PDict <$> msgs) = Raise KeyError.
Proof.
  induction msgs as [|m msgs IH]; intros Hex lines.
  { by apply Exists_nil in Hex. }
  rewrite fmap_cons, render_loop_cons.
  destruct (decide (has_str_role m)) as [Hr|Hr].
  2:{ left. by rewrite render_line_no_role. }
  destruct (decide (has_content m)) as [Hc|Hc].
  2:{ right. by rewrite render_line_no_content. }
  destruct (render_line_ok m (conj Hr Hc)) as [line ->]. cbn.
  apply IH. apply Exists_cons in Hex as [Hex|Hex]; [|done].
  by destruct Hex.
Qed.

Lemma render_loop_no_role msgs :
  Forall has_content msgs →
  Exists (λ m, ¬ has_str_role m) msgs →
  ∀ lines,
    render_loop capitalize lines (PDict <$> msgs) = Raise AttributeError.
Proof.
  induction 1 as [|m msgs Hc _ IH]; intros Hex lines.
  { by apply Exists_nil in Hex. }
  rewrite fmap_cons, render_loop_cons.
  destruct (decide (has_str_role m)) as [Hr|Hr].
  2:{ by rewrite render_line_no_role. }
  destruct (render_line_ok m (conj Hr Hc)) as [line ->]. cbn.
  apply IH. by apply Exists_cons in Hex as [Hex|Hex].
Qed.

Lemma render_loop_no_content msgs :
  Forall has_str_role msgs →
  Exists (λ m, ¬ has_content m) msgs →
  ∀ lines,
    render_loop capitalize lines (PDict <$> msgs) = Raise KeyError.
Proof.
  induction 1 as [|m msgs Hr _ IH]; intros Hex lines.
  { by apply Exists_nil in Hex. }
  rewrite fmap_cons, render_loop_cons.
  destruct (decide (has_content m)) as [Hc|Hc].
  2:{ by rewrite render_line_no_content. }
  destruct (render_line_ok m (conj Hr Hc)) as [line ->]. cbn.
  apply IH. by apply Exists_cons in Hex as [Hex|Hex].
Qed.

Lemma prefixes_getitem_assistant :
  prefixes_getitem "assistant" = Ok "Assistant".
Proof. vm_compute. reflexivity. Qed.

(** Past the assertion and the single-message shortcut. *)
Lemma chat_prompt_to_text_prompt_loop msgs :
  length msgs ≠ 1 →
  chat_prompt_to_text_prompt capitalize (chat msgs)
  = render_loop capitalize [] (PDict <$> msgs) ≫= λ lines,
      Ok (PStr (lstrip (join nl lines +:+ "Assistant" +:+ ": "))).
Proof.
  intros Hlen. unfold chat_prompt_to_text_prompt.
  rewrite is_chat_prompt_chat. unfold chat, negb.
  rewrite length_fmap.
  destruct (Nat.eqb_spec (List.length msgs) 1) as [E|_]; [done|].
  destruct (render_loop capitalize [] (PDict <$> msgs)); [|done].
  by rewrite prefixes_getitem_assistant.
Qed.

(** The single-message shortcut. *)
Lemma single_message_shortcut (m : gmap string field) (c : field) :
  m !! "content" = Some c →
  chat_prompt_to_text_prompt capitalize (chat [m]) = Ok (inject c).
Proof.
  intros Hc. unfold chat_prompt_to_text_prompt, chat. cbn. by rewrite Hc.
Qed.

End RenderFacts.

(** * The statements of the specification *)

Section Rendering.

Variable capitalize : string -> string.

(** C1 (as the code behaves).  For the two-message prompt
    [{"role":"user","content":"Hi"}, {"role":"assistant","content":"Hello"}]
    the rendered lines are joined by a newline and the marker
    "Assistant: " is appended to that text with no newline of its own:
    the result is "User: Hi\nAssistant: HelloAssistant: ", which is not
    the string "User: Hi\nAssistant: Hello\nAssistant: " of the
    specification. *)
Theorem two_messages_marker_on_last_line :
  chat_prompt_to_text_prompt capitalize
    (chat [msg_user_hi; msg_assistant_hello])
  = Ok (PStr ("User: Hi" +:+ nl +:+ "Assistant: HelloAssistant: "))
  ∧ chat_prompt_to_text_prompt capitalize
      (chat [msg_user_hi; msg_assistant_hello])
    ≠ Ok (PStr ("User: Hi" +:+ nl +:+ "Assistant: Hello" +:+ nl
                +:+ "Assistant: ")).
Proof.
  assert (chat_prompt_to_text_prompt capitalize
            (chat [msg_user_hi; msg_assistant_hello])
          = Ok (PStr ("User: Hi" +:+ nl +:+ "Assistant: HelloAssistant: ")))
    as E by (vm_compute; reflexivity).
  split; [exact E|]. rewrite E. vm_compute. discriminate.
Qed.

(** C2 (amended).  On the empty chat prompt the renderer does not fail:
    the predicate accepts the empty list, the shortcut does not apply,
    the loop renders no line, and the result is the marker
    "Assistant: " alone. *)
Theorem empty_prompt_renders_marker :
  is_chat_prompt (PList []) = true
  ∧ chat_prompt_to_text_prompt capitalize (PList []) = Ok (PStr "Assistant: ").
Proof. split; vm_compute; reflexivity. Qed.

(** C3.  For a chat prompt of exactly one message, whatever its role,
    the renderer returns the content of that message as it is: no
    prefix, no marker, no stripping. *)
Theorem single_message_content (m : gmap string field) (s : string) :
  m !! "content" = Some (FStr s) →
  chat_prompt_to_text_prompt capitalize (chat [m]) = Ok (PStr s).
Proof. intros Hc. by rewrite (single_message_shortcut _ m (FStr s)). Qed.

(** C4.  Wrapping a string as a chat prompt and rendering that prompt
    as text gives the string back. *)
Theorem text_chat_text_roundtrip (s : string) :
  text_prompt_to_chat_prompt (PStr s)
    ≫= chat_prompt_to_text_prompt capitalize
  = Ok (PStr s).
Proof.
  change (chat_prompt_to_text_prompt capitalize
            (chat [{[ "role" := FStr "system"; "content" := FStr s ]}])
          = Ok (PStr s)).
  apply (single_message_shortcut _ _ (FStr s)).
  by rewrite lookup_insert_ne, lookup_singleton_eq.
Qed.

(** C9.  The renderer raises the assertion failure (InvalidInput) on
    every value the chat-prompt predicate rejects, the wrapper raises
    it on every value that is not a string, and each of the two
    operations either returns a value or raises: there is no third
    outcome. *)
Theorem invalid_input_rejected (p q : pyval) :
  is_chat_prompt p = false →
  is_str q = false →
  chat_prompt_to_text_prompt capitalize p = Raise AssertionError
  ∧ text_prompt_to_chat_prompt q = Raise AssertionError
  ∧ (∀ v, (∃ r, chat_prompt_to_text_prompt capitalize v = Ok r)
          ∨ (∃ e, chat_prompt_to_text_prompt capitalize v = Raise e))
  ∧ (∀ v, (∃ r, text_prompt_to_chat_prompt v = Ok r)
          ∨ (∃ e, text_prompt_to_chat_prompt v = Raise e)).
Proof.
  intros Hp Hq. repeat split.
  - unfold chat_prompt_to_text_prompt. by rewrite Hp.
  - by destruct q.
  - intros v. destruct (chat_prompt_to_text_prompt capitalize v); eauto.
  - intros v. destruct (text_prompt_to_chat_prompt v); eauto.
Qed.

(** C10.  On a chat prompt of two or more messages the renderer returns
    a string when every message has a string under "role" and has a
    "content" key, and only then: a message without a string role
    makes [role.capitalize()] raise [AttributeError], a message without
    "content" makes the lookup raise [KeyError], and neither is the
    assertion failure (InvalidInput). *)
Theorem render_total_iff_renderable (msgs : list (gmap string field)) :
  (2 ≤ length msgs)%nat →
  (Forall renderable msgs →
   ∃ s, chat_prompt_to_text_prompt capitalize (chat msgs) = Ok (PStr s))
  ∧ (Exists (λ m, ¬ renderable m) msgs →
     chat_prompt_to_text_prompt capitalize (chat msgs) = Raise AttributeError
     ∨ chat_prompt_to_text_prompt capitalize (chat msgs) = Raise KeyError)
  ∧ (Forall has_content msgs → Exists (λ m, ¬ has_str_role m) msgs →
     chat_prompt_to_text_prompt capitalize (chat msgs) = Raise AttributeError)
  ∧ (Forall has_str_role msgs → Exists (λ m, ¬ has_content m) msgs →
     chat_prompt_to_text_prompt capitalize (chat msgs) = Raise KeyError).
Proof.
  intros Hlen.
  rewrite chat_prompt_to_text_prompt_loop by lia.
  repeat split.
  - intros Hall.
    destruct (render_loop_ok capitalize msgs Hall []) as [lines ->].
    cbn. eauto.
  - intros Hex.
    destruct (render_loop_raise capitalize msgs Hex []) as [-> | ->];
      [by left|by right].
  - intros Hc Hex. by rewrite render_loop_no_role.
  - intros Hr Hex. by rewrite render_loop_no_content.
Qed.

End Rendering.

Section Normalizing.

Implicit Types (msgs : list (gmap string field)) (m : gmap string field).

(** C5.  The normalizer turns every message of role "tool" into a
    message of role "assistant" whose content is the original content
    behind "Tool (name): " when the message has a name, and the
    original content alone when it has none; the message
    [{"role":"tool","name":"calc","content":"4"}] becomes
    [{"role":"assistant","content":"Tool (calc): 4"}]. *)
Theorem tool_message_normalized msgs :
  Forall preparable msgs →
  (∃ out,
     _prepare_chat_prompt (PDict <$> msgs) = Ok out
     ∧ ∀ i m c,
         msgs !! i = Some m →
         m !! "role" = Some (FStr "tool") →
         m !! "content" = Some (FStr c) →
         (∀ n, m !! "name" = Some (FStr n) →
               out !! i
               = Some (PDict {[ "role" := FStr "assistant";
                                "content" :=
                                  FStr (("Tool (" +:+ n +:+ "): ") +:+ c) ]}))
         ∧ (m !! "name" = None →
            out !! i
            = Some (PDict {[ "role" := FStr "assistant";
                             "content" := FStr c ]})))
  ∧ _prepare_chat_prompt [PDict msg_tool_calc]
    = Ok [PDict {[ "role" := FStr "assistant";
                   "content" := FStr "Tool (calc): 4" ]}].
Proof.
  intros Hall. split; [|by vm_compute].
  destruct (prepare_chat_prompt_spec msgs Hall) as (out & Hout & Hrel).
  exists out. split; [exact Hout|]. intros i m c Hi Hr Hc.
  destruct (Forall2_lookup_l _ _ _ _ _ Hrel Hi) as (x & Hx & Hm).
  rewrite Hx. apply (appended_tool m (FStr c) x Hr Hc) in Hm.
  split.
  - intros n Hn. by rewrite Hm, Hn.
  - intros Hn. by rewrite Hm, Hn.
Qed.

(** C6.  The normalizer turns every message of role "assistant" that
    carries a recipient into a message of role "assistant" whose
    content is "To {recipient}: {content}" and which has neither a
    "recipient" nor a "name" entry; the message
    [{"role":"assistant","recipient":"user","content":"hi"}] becomes
    [{"role":"assistant","content":"To user: hi"}]. *)
Theorem addressed_message_normalized msgs :
  Forall preparable msgs →
  (∃ out,
     _prepare_chat_prompt (PDict <$> msgs) = Ok out
     ∧ ∀ i m r c,
         msgs !! i = Some m →
         m !! "role" = Some (FStr "assistant") →
         m !! "recipient" = Some (FStr r) →
         m !! "content" = Some (FStr c) →
         ∃ m',
           out !! i = Some (PDict m')
           ∧ m' = {[ "role" := FStr "assistant";
                     "content" := FStr ("To " +:+ r +:+ ": " +:+ c) ]}
           ∧ m' !! "recipient" = None
           ∧ m' !! "name" = None)
  ∧ _prepare_chat_prompt [PDict msg_to_user]
    = Ok [PDict {[ "role" := FStr "assistant";
                   "content" := FStr "To user: hi" ]}].
Proof.
  intros Hall. split; [|by vm_compute].
  destruct (prepare_chat_prompt_spec msgs Hall) as (out & Hout & Hrel).
  exists out. split; [exact Hout|]. intros i m r c Hi Hr Hrc Hc.
  destruct (Forall2_lookup_l _ _ _ _ _ Hrel Hi) as (x & Hx & Hm).
  apply (appended_to_recipient m (FStr c) r x Hr Hc Hrc) in Hm.
  eexists. split; [by rewrite Hx, Hm|]. split; [done|].
  split; by rewrite lookup_insert_ne, lookup_singleton_ne.
Qed.

(** C7.  On every chat prompt the normalizer returns a chat prompt of
    the same length whose i-th message is what the loop appends for the
    i-th input message, and every message that is neither of role
    "tool" nor of role "assistant" with a recipient is in the output,
    unchanged, at the position it had. *)
Theorem normalizer_keeps_length_and_order msgs :
  Forall preparable msgs →
  ∃ out,
    _prepare_chat_prompt (PDict <$> msgs) = Ok out
    ∧ length out = length msgs
    ∧ Forall2 appended_for msgs out
    ∧ is_chat_prompt (PList out) = true
    ∧ ∀ i m,
        msgs !! i = Some m →
        m !! "role" ≠ Some (FStr "tool") →
        (m !! "role" = Some (FStr "assistant") →
         ∀ r, m !! "recipient" ≠ Some (FStr r)) →
        out !! i = Some (PDict m).
Proof.
  intros Hall.
  destruct (prepare_chat_prompt_spec msgs Hall) as (out & Hout & Hrel).
  exists out. split; [exact Hout|].
  split; [symmetry; by eapply Forall2_length|].
  split; [exact Hrel|].
  split; [by eapply appended_all_dicts|].
  intros i m Hi Htool Hrc.
  destruct (Forall2_lookup_l _ _ _ _ _ Hrel Hi) as (x & Hx & Hm).
  rewrite Hx. f_equal. by apply appended_unchanged.
Qed.

(** C8.  The wrapper turns every string into the one-message chat
    prompt [{"role": "system", "content": s}], the content being the
    string itself, and [ChatCompletionPrompt.to_openai_create_prompt]
    does the same on a raw prompt that is a string. *)
Theorem text_wrapped_as_system_message (s : string) :
  text_prompt_to_chat_prompt (PStr s)
  = Ok (chat [{[ "role" := FStr "system"; "content" := FStr s ]}])
  ∧ ChatCompletionPrompt.to_openai_create_prompt (PStr s)
    = Ok (chat [{[ "role" := FStr "system"; "content" := FStr s ]}])
  ∧ ({[ "role" := FStr "system"; "content" := FStr s ]}
       : gmap string field) !! "content" = Some (FStr s)
  ∧ ({[ "role" := FStr "system"; "content" := FStr s ]}
       : gmap string field) !! "role" = Some (FStr "system").
Proof.
  split; [reflexivity|]. split; [reflexivity|]. split.
  - by rewrite lookup_insert_ne, lookup_singleton_eq.
  - by rewrite lookup_insert_eq.
Qed.

End Normalizing.

(** * The statements at concrete prompts *)

(** C2: the claim as stated fails on the empty list, which is rendered,
    not rejected. *)
Lemma empty_prompt_is_not_rejected :
  chat_prompt_to_text_prompt ascii_capitalize (PList []) ≠ Raise AssertionError.
Proof. vm_compute. discriminate. Qed.

Lemma single_message_content_holds :
  msg_user_hi !! "content" = Some (FStr "Hi")
  ∧ chat_prompt_to_text_prompt ascii_capitalize (chat [msg_user_hi])
    = Ok (PStr "Hi").
Proof.
  split; [vm_compute; reflexivity|].
  apply (single_message_content ascii_capitalize msg_user_hi "Hi").
  vm_compute; reflexivity.
Defined.

Lemma invalid_input_rejected_holds :
  is_chat_prompt (PStr "Hi") = false
  ∧ is_str (PList [PInt 1; PInt 2]) = false
  ∧ chat_prompt_to_text_prompt ascii_capitalize (PStr "Hi")
    = Raise AssertionError
  ∧ text_prompt_to_chat_prompt (PList [PInt 1; PInt 2]) = Raise AssertionError.
Proof.
  split; [reflexivity|]. split; [reflexivity|].
  pose proof (invalid_input_rejected ascii_capitalize
                (PStr "Hi") (PList [PInt 1; PInt 2]) eq_refl eq_refl)
    as (H1 & H2 & _).
  exact (conj H1 H2).
Defined.

Lemma preparable_examples :
  Forall preparable [msg_user_hi; msg_tool_calc; msg_to_user].
Proof.
  repeat constructor; eexists; vm_compute; reflexivity.
Defined.

Lemma renderable_examples :
  Forall renderable [msg_user_hi; msg_assistant_hello].
Proof.
  repeat constructor; eexists; vm_compute; reflexivity.
Defined.

Lemma render_total_iff_renderable_holds :
  (2 ≤ length [msg_user_hi; msg_assistant_hello])%nat
  ∧ ∃ s, chat_prompt_to_text_prompt ascii_capitalize
           (chat [msg_user_hi; msg_assistant_hello]) = Ok (PStr s).
Proof.
  split; [cbn; lia|].
  apply (render_total_iff_renderable ascii_capitalize
           [msg_user_hi; msg_assistant_hello]); [cbn; lia|].
  exact renderable_examples.
Defined.

Lemma tool_message_normalized_holds :
  Forall preparable [msg_user_hi; msg_tool_calc; msg_to_user]
  ∧ ∃ out,
      _prepare_chat_prompt (PDict <$> [msg_user_hi; msg_tool_calc; msg_to_user])
      = Ok out
      ∧ out !! 1%nat
        = Some (PDict {[ "role" := FStr "assistant";
                         "content" := FStr "Tool (calc): 4" ]}).
Proof.
  split; [exact preparable_examples|].
  destruct (tool_message_normalized
              [msg_user_hi; msg_tool_calc; msg_to_user] preparable_examples)
    as [(out & Hout & Hat) _].
  exists out. split; [exact Hout|].
  destruct (Hat 1%nat msg_tool_calc "4") as [Hnamed _];
    try (vm_compute; reflexivity).
  apply (Hnamed "calc"). vm_compute; reflexivity.
Defined.

Lemma addressed_message_normalized_holds :
  Forall preparable [msg_user_hi; msg_tool_calc; msg_to_user]
  ∧ ∃ out,
      _prepare_chat_prompt (PDict <$> [msg_user_hi; msg_tool_calc; msg_to_user])
      = Ok out
      ∧ ∃ m', out !! 2%nat = Some (PDict m')
              ∧ m' !! "content" = Some (FStr "To user: hi")
              ∧ m' !! "recipient" = None.
Proof.
  split; [exact preparable_examples|].
  destruct (addressed_message_normalized
              [msg_user_hi; msg_tool_calc; msg_to_user] preparable_examples)
    as [(out & Hout & Hat) _].
  exists out. split; [exact Hout|].
  destruct (Hat 2%nat msg_to_user "user" "hi") as (m' & Hm' & Heq & Hrc & _);
    try (vm_compute; reflexivity).
  exists m'. split; [exact Hm'|]. split; [|exact Hrc].
  rewrite Heq. vm_compute; reflexivity.
Defined.

Lemma normalizer_keeps_length_and_order_holds :
  Forall preparable [msg_user_hi; msg_tool_calc; msg_to_user]
  ∧ ∃ out,
      _prepare_chat_prompt (PDict <$> [msg_user_hi; msg_tool_calc; msg_to_user])
      = Ok out
      ∧ length out = 3%nat
      ∧ out !! 0%nat = Some (PDict msg_user_hi).
Proof.
  split; [exact preparable_examples|].
  destruct (normalizer_keeps_length_and_order
              [msg_user_hi; msg_tool_calc; msg_to_user] preparable_examples)
    as (out & Hout & Hlen & _ & _ & Hat).
  exists out. split; [exact Hout|]. split; [exact Hlen|].
  apply (Hat 0%nat msg_user_hi); [reflexivity| |]; vm_compute; discriminate.
Defined.

(** * Further properties of the module *)

(** ** The structural predicate *)

Lemma forallb_is_dict l :
  forallb is_dict l = true → ∃ msgs, l = PDict <$> msgs.
Proof.
  induction l as [|v l IH]; [by exists []|].
  cbn. intros H. apply andb_prop in H as [Hv Hl].
  destruct v as [| | | |m]; try discriminate.
  destruct (IH Hl) as [msgs ->]. by exists (m :: msgs).
Qed.

Lemma is_chat_prompt_inv prompt :
  is_chat_prompt prompt = true → ∃ msgs, prompt = chat msgs.
Proof.
  destruct prompt as [| | |l|]; try discriminate. intros H.
  destruct (forallb_is_dict l H) as [msgs ->]. by exists msgs.
Qed.

(** X1.  [is_chat_prompt] accepts exactly the lists of dicts, the empty
    list among them: whatever the dicts hold, and nothing else. *)
Theorem is_chat_prompt_iff_list_of_dicts (prompt : pyval) :
  is_chat_prompt prompt = true ↔ ∃ msgs, prompt = chat msgs.
Proof.
  split; [apply is_chat_prompt_inv|].
  intros [msgs ->]. apply is_chat_prompt_chat.
Qed.

(** ** The normalizer: when it raises, and what it returns *)

#[global] Instance preparable_dec m : Decision (preparable m).
Proof. unfold preparable, has_role, has_content. apply _. Defined.

Lemma appended_preparable m x : appended_for m x → preparable m.
Proof.
  unfold appended_for, prepare_step, preparable, has_role, has_content. cbn.
  destruct (m !! "role"); [|done]. cbn.
  destruct (m !! "content"); [|done]. intros _. split; eauto.
Qed.

Lemma prepare_step_not_preparable prompts m :
  ¬ preparable m → prepare_step prompts (PDict m) = Raise KeyError.
Proof.
  intros H. unfold prepare_step. cbn.
  destruct (m !! "role") as [role|] eqn:Hr; [|done]. cbn.
  destruct (m !! "content") as [content|] eqn:Hc; [|done].
  destruct H. unfold preparable, has_role, has_content.
  rewrite Hr, Hc. split; eauto.
Qed.

Lemma prepare_loop_raise msgs :
  Exists (not ∘ preparable) msgs →
  ∀ prompts, prepare_loop prompts (PDict <$> msgs) = Raise KeyError.
Proof.
  induction msgs as [|m msgs IH]; intros Hex prompts.
  { by apply Exists_nil in Hex. }
  rewrite fmap_cons, prepare_loop_cons.
  destruct (decide (preparable m)) as [Hm|Hm].
  2:{ by rewrite prepare_step_not_preparable. }
  destruct (prepare_step_total m Hm) as [x Hx]. unfold appended_for in Hx.
  rewrite prepare_step_app, Hx. cbn.
  apply IH. apply Exists_cons in Hex as [Hex|Hex]; [|done]. by destruct Hex.
Qed.

Lemma prepare_step_inv prompts msg res :
  prepare_step prompts msg = Ok res →
  ∃ m x, msg = PDict m ∧ res = (prompts ++ [x])%list ∧ appended_for m x.
Proof.
  destruct msg as [| | | |m]; try discriminate.
  rewrite prepare_step_app. unfold appended_for.
  destruct (prepare_step [] (PDict m)) as [l|] eqn:E; [|discriminate].
  cbn. intros [= <-].
  assert (∃ x, l = [x]) as [x ->]; [|by exists m, x].
  revert E. unfold prepare_step. cbn.
  destruct (m !! "role") as [role|]; [|done]. cbn.
  destruct (m !! "content") as [content|]; [|done]. cbn.
  destruct (field_eqb role "tool"); [intros [= <-]; eauto|].
  destruct (field_eqb role "assistant"); [|intros [= <-]; eauto].
  destruct (default FNone (m !! "recipient")); intros [= <-]; eauto.
Qed.

Lemma prepare_loop_inv prompt :
  ∀ prompts res,
    prepare_loop prompts prompt = Ok res →
    ∃ msgs out,
      prompt = PDict <$> msgs ∧ res = (prompts ++ out)%list
      ∧ Forall2 appended_for msgs out.
Proof.
  induction prompt as [|msg rest IH]; intros prompts res.
  - cbn. intros [= <-]. exists [], []. by rewrite app_nil_r.
  - rewrite prepare_loop_cons.
    destruct (prepare_step prompts msg) as [prompts'|] eqn:E; [|discriminate].
    cbn. intros H. apply prepare_step_inv in E as (m & x & -> & -> & Hx).
    apply IH in H as (msgs & out & -> & -> & Hall).
    exists (m :: msgs), (x :: out). split; [done|].
    split; [by rewrite <- app_assoc|]. by constructor.
Qed.

Lemma prepare_chat_prompt_inv prompt out :
  _prepare_chat_prompt prompt = Ok out →
  ∃ msgs, prompt = PDict <$> msgs ∧ Forall2 appended_for msgs out.
Proof.
  intros H. apply prepare_loop_inv in H as (msgs & out' & -> & -> & Hall).
  by exists msgs.
Qed.

Lemma Forall2_appended_preparable msgs out :
  Forall2 appended_for msgs out → Forall preparable msgs.
Proof.
  induction 1 as [|m x msgs out Hx _ IH]; constructor; [|done].
  by eapply appended_preparable.
Qed.

(** X2.  On a list of dicts [_prepare_chat_prompt] returns exactly when
    every message has a "role" and a "content" key; when some message
    lacks one of them it raises [KeyError] and builds nothing. *)
Theorem prepare_returns_iff_preparable (msgs : list (gmap string field)) :
  (Forall preparable msgs
   ∧ ∃ out, _prepare_chat_prompt (PDict <$> msgs) = Ok out)
  ∨ (¬ Forall preparable msgs
     ∧ _prepare_chat_prompt (PDict <$> msgs) = Raise KeyError).
Proof.
  destruct (decide (Forall preparable msgs)) as [Hall|Hno].
  - left. split; [done|].
    destruct (prepare_chat_prompt_spec msgs Hall) as (out & Hout & _).
    by exists out.
  - right. split; [done|].
    apply prepare_loop_raise. apply not_Forall_Exists; [apply _|exact Hno].
Qed.

Lemma append_assoc (a b c : string) : (a +:+ b) +:+ c = a +:+ (b +:+ c).
Proof.
  induction a as [|x a IH]; [done|].
  change (String x ((a +:+ b) +:+ c) = String x (a +:+ (b +:+ c))).
  by rewrite IH.
Qed.

Lemma updated_message_settled (c : string) :
  preparable {[ "role" := FStr "assistant"; "content" := FStr c ]}
  ∧ settled {[ "role" := FStr "assistant"; "content" := FStr c ]}.
Proof.
  split; [split; eexists; reflexivity|].
  split; [discriminate|]. intros _ r. discriminate.
Qed.

Lemma appended_settled m x :
  appended_for m x → ∃ m', x = PDict m' ∧ preparable m' ∧ settled m'.
Proof.
  intros Hx. pose proof (appended_preparable m x Hx) as Hm. revert Hx.
  unfold appended_for, prepare_step. cbn.
  destruct (m !! "role") as [role|] eqn:Hr; [|done]. cbn.
  destruct (m !! "content") as [content|] eqn:Hc; [|done]. cbn.
  destruct (field_eqb role "tool") eqn:E1.
  { intros [= <-]. eexists. split; [done|]. apply updated_message_settled. }
  apply field_eqb_false in E1.
  destruct (field_eqb role "assistant") eqn:E2.
  - destruct (m !! "recipient") as [[|r]|] eqn:Hrc; cbn; intros [= <-].
    + exists m. split; [done|]. split; [done|]. split; [congruence|].
      intros _ r. rewrite Hrc. discriminate.
    + eexists. split; [done|]. apply updated_message_settled.
    + exists m. split; [done|]. split; [done|]. split; [congruence|].
      intros _ r. rewrite Hrc. discriminate.
  - apply field_eqb_false in E2. intros [= <-].
    exists m. split; [done|]. split; [done|]. split; congruence.
Qed.

Lemma Forall2_appended_settled msgs out :
  Forall2 appended_for msgs out →
  ∃ msgs', out = PDict <$> msgs'
           ∧ Forall preparable msgs' ∧ Forall settled msgs'.
Proof.
  induction 1 as [|m x msgs out Hx _ (msgs' & -> & Hp & Hs)].
  - exists []. by repeat split.
  - destruct (appended_settled m x Hx) as (m' & -> & Hp' & Hs').
    exists (m' :: msgs'). split; [done|]. split; by constructor.
Qed.

Lemma prepare_settled msgs :
  Forall preparable msgs → Forall settled msgs →
  _prepare_chat_prompt (PDict <$> msgs) = Ok (PDict <$> msgs).
Proof.
  intros Hp Hs.
  destruct (prepare_chat_prompt_spec msgs Hp) as (out & -> & Hrel).
  f_equal. clear Hp. induction Hrel as [|m x msgs out Hx _ IH]; [done|].
  apply Forall_cons in Hs as [[Htool Hrc] Hs].
  rewrite fmap_cons. f_equal; [|by apply IH].
  by apply appended_unchanged.
Qed.

(** X3.  Whatever list [_prepare_chat_prompt] returns holds dicts only,
    none of role "tool" and none of role "assistant" with a recipient:
    the two kinds of message the loop rewrites never reach the output. *)
Theorem normalized_prompt_has_no_tool_message
  (prompt out : list pyval) (v : pyval) :
  _prepare_chat_prompt prompt = Ok out →
  v ∈ out →
  ∃ m,
    v = PDict m
    ∧ m !! "role" ≠ Some (FStr "tool")
    ∧ ∀ r, ¬ (m !! "role" = Some (FStr "assistant")
              ∧ m !! "recipient" = Some (FStr r)).
Proof.
  intros H Hv. apply prepare_chat_prompt_inv in H as (msgs & -> & Hrel).
  apply Forall2_appended_settled in Hrel as (msgs' & -> & _ & Hs).
  apply list_elem_of_fmap in Hv as (m & -> & Hm).
  exists m. split; [done|].
  rewrite Forall_forall in Hs. destruct (Hs m Hm) as [Htool Hrc].
  split; [done|]. intros r [Hr Hr']. by apply (Hrc Hr r).
Qed.

(** X4.  [_prepare_chat_prompt] is idempotent: run on a list it has
    returned, it returns that list again. *)
Theorem prepare_chat_prompt_idempotent (prompt out : list pyval) :
  _prepare_chat_prompt prompt = Ok out →
  _prepare_chat_prompt out = Ok out.
Proof.
  intros H. apply prepare_chat_prompt_inv in H as (msgs & -> & Hrel).
  apply Forall2_appended_settled in Hrel as (msgs' & -> & Hp & Hs).
  by apply prepare_settled.
Qed.

Lemma appended_content m x c :
  appended_for m x → m !! "content" = Some (FStr c) →
  ∃ m' p, x = PDict m' ∧ m' !! "content" = Some (FStr (p +:+ c)).
Proof.
  intros Hx Hc. revert Hx. unfold appended_for, prepare_step. cbn.
  destruct (m !! "role") as [role|] eqn:Hr; [|done]. cbn.
  rewrite Hc. cbn.
  destruct (field_eqb role "tool").
  { intros [= <-]. by eexists _, _. }
  destruct (field_eqb role "assistant").
  2:{ intros [= <-]. by exists m, "". }
  destruct (default FNone (m !! "recipient")) as [|r]; intros [= <-].
  - by exists m, "".
  - exists {[ "role" := FStr "assistant";
              "content" := FStr ("To " +:+ r +:+ ": " +:+ c) ]},
           ("To " +:+ r +:+ ": ").
    split; [done|]. by rewrite !append_assoc.
Qed.

(** X5.  The normalizer never drops or cuts a content: at every position
    the content of the output message is the content of the input
    message behind a (possibly empty) prefix. *)
Theorem normalizer_only_prefixes_content (msgs : list (gmap string field)) :
  Forall preparable msgs →
  ∃ out,
    _prepare_chat_prompt (PDict <$> msgs) = Ok out
    ∧ ∀ i m c,
        msgs !! i = Some m →
        m !! "content" = Some (FStr c) →
        ∃ m' p,
          out !! i = Some (PDict m')
          ∧ m' !! "content" = Some (FStr (p +:+ c)).
Proof.
  intros Hall.
  destruct (prepare_chat_prompt_spec msgs Hall) as (out & Hout & Hrel).
  exists out. split; [exact Hout|]. intros i m c Hi Hc.
  destruct (Forall2_lookup_l _ _ _ _ _ Hrel Hi) as (x & Hx & Hm).
  destruct (appended_content m x c Hm Hc) as (m' & p & -> & Hc').
  by exists m', p.
Qed.

(** X6.  A tool message whose "name" entry is [None] is normalized like
    one without a name: the content gets no "Tool (...)" prefix. *)
Theorem tool_message_with_none_name (m : gmap string field) (c : string) :
  m !! "role" = Some (FStr "tool") →
  m !! "name" = Some FNone →
  m !! "content" = Some (FStr c) →
  _prepare_chat_prompt [PDict m]
  = Ok [PDict {[ "role" := FStr "assistant"; "content" := FStr c ]}].
Proof.
  intros Hr Hn Hc. unfold _prepare_chat_prompt, prepare_loop, prepare_step.
  cbn. by rewrite Hr, Hc, Hn.
Qed.

(** X7.  [ChatCompletionPrompt.to_openai_create_prompt] has three
    outcomes: it returns a chat prompt; it raises [AssertionError],
    exactly on a raw prompt that is neither a chat prompt nor a string
    (a list of tokens, say); it raises [KeyError], exactly on a chat
    prompt with a message that lacks "role" or "content". *)
Theorem chat_completion_prompt_outcomes (raw_prompt : pyval) :
  (∃ out,
     ChatCompletionPrompt.to_openai_create_prompt raw_prompt = Ok out
     ∧ is_chat_prompt out = true
     ∧ (is_str raw_prompt = true
        ∨ ∃ msgs, raw_prompt = chat msgs ∧ Forall preparable msgs))
  ∨ (ChatCompletionPrompt.to_openai_create_prompt raw_prompt
     = Raise AssertionError
     ∧ is_chat_prompt raw_prompt = false ∧ is_str raw_prompt = false)
  ∨ (ChatCompletionPrompt.to_openai_create_prompt raw_prompt = Raise KeyError
     ∧ ∃ msgs, raw_prompt = chat msgs ∧ ¬ Forall preparable msgs).
Proof.
  unfold ChatCompletionPrompt.to_openai_create_prompt.
  destruct (is_chat_prompt raw_prompt) eqn:E.
  - apply is_chat_prompt_inv in E as [msgs ->]. unfold chat.
    destruct (decide (Forall preparable msgs)) as [Hall|Hno].
    + destruct (prepare_chat_prompt_spec msgs Hall) as (out & Hout & _).
      left. exists (PList out). rewrite Hout. split; [done|].
      split; [|right; by exists msgs].
      apply prepare_chat_prompt_inv in Hout as (msgs' & _ & Hrel).
      by eapply appended_all_dicts.
    + right. right. split; [|by exists msgs].
      unfold _prepare_chat_prompt. rewrite prepare_loop_raise; [done|].
      apply not_Forall_Exists; [apply _|exact Hno].
  - destruct raw_prompt as [| |s| |]; try (right; left; by repeat split).
    left. eexists. split; [reflexivity|]. split; [done|]. by left.
Qed.

(** ** The renderer: the shape of the text *)

Lemma lstrip_keeps_marker (text : string) :
  ∃ t, lstrip (text +:+ "Assistant: ") = t +:+ "Assistant: ".
Proof.
  induction text as [|c text [t IH]]; [by exists ""|].
  change (String c text +:+ "Assistant: ")
    with (String c (text +:+ "Assistant: ")).
  cbn [lstrip]. destruct (is_space c); [by exists t|by exists (String c text)].
Qed.

Lemma lstrip_no_leading_space (s : string) :
  starts_with_space (lstrip s) = false.
Proof.
  induction s as [|c s IH]; [done|]. cbn [lstrip].
  destruct (is_space c) eqn:E; [done|]. cbn. exact E.
Qed.

Section RenderShape.

Variable capitalize : string -> string.

Lemma rendered_text_is_stripped msgs v :
  length msgs ≠ 1%nat →
  chat_prompt_to_text_prompt capitalize (chat msgs) = Ok v →
  ∃ text, v = PStr (lstrip (text +:+ "Assistant: ")).
Proof.
  intros Hlen. rewrite chat_prompt_to_text_prompt_loop by done.
  destruct (render_loop capitalize [] (PDict <$> msgs)) as [lines|];
    [|discriminate].
  cbn. intros [= <-]. by exists (join nl lines).
Qed.

(** X8.  Whenever [chat_prompt_to_text_prompt] returns on a chat prompt
    that is not a single message, the text it returns ends with the
    marker "Assistant: ". *)
Theorem rendered_text_ends_with_marker
  (msgs : list (gmap string field)) (v : pyval) :
  length msgs ≠ 1%nat →
  chat_prompt_to_text_prompt capitalize (chat msgs) = Ok v →
  ∃ t, v = PStr (t +:+ "Assistant: ").
Proof.
  intros Hlen Hv.
  destruct (rendered_text_is_stripped msgs v Hlen Hv) as [text ->].
  destruct (lstrip_keeps_marker text) as [t ->]. by exists t.
Qed.

(** X9.  Whenever [chat_prompt_to_text_prompt] returns on a chat prompt
    that is not a single message, the text it returns does not begin with
    white space: leading white space of the first message is lost, where
    the single-message shortcut keeps it. *)
Theorem rendered_text_has_no_leading_space
  (msgs : list (gmap string field)) (v : pyval) :
  length msgs ≠ 1%nat →
  chat_prompt_to_text_prompt capitalize (chat msgs) = Ok v →
  ∃ s, v = PStr s ∧ starts_with_space s = false.
Proof.
  intros Hlen Hv.
  destruct (rendered_text_is_stripped msgs v Hlen Hv) as [text ->].
  eexists. split; [done|]. apply lstrip_no_leading_space.
Qed.

(** X10.  The prefixes the docstring promises, for a message with neither
    a name nor a recipient: a system message is rendered as its content
    alone, a user message behind "User: ", an assistant message behind
    "Assistant: ". *)
Theorem plain_message_prefix (m : gmap string field) (c : string) :
  m !! "content" = Some (FStr c) →
  m !! "name" = None →
  m !! "recipient" = None →
  (m !! "role" = Some (FStr "system") →
   render_line capitalize (PDict m) = Ok c)
  ∧ (m !! "role" = Some (FStr "user") →
     render_line capitalize (PDict m) = Ok ("User: " +:+ c))
  ∧ (m !! "role" = Some (FStr "assistant") →
     render_line capitalize (PDict m) = Ok ("Assistant: " +:+ c)).
Proof.
  intros Hc Hn Hrc. unfold render_line. cbn.
  rewrite Hc, Hn, Hrc.
  repeat split; intros ->; reflexivity.
Qed.

(** X11.  An optional entry that holds [None] counts as absent: a message
    whose "name" (or "recipient") is [None] is rendered as the message
    without that key. *)
Theorem none_entry_rendered_as_absent (m : gmap string field) (k : string) :
  k = "name" ∨ k = "recipient" →
  m !! k = Some FNone →
  render_line capitalize (PDict m)
  = render_line capitalize (PDict (delete k m)).
Proof.
  intros [-> | ->] Hk; unfold render_line; cbn;
    rewrite Hk, lookup_delete_eq, !lookup_delete_ne by done; reflexivity.
Qed.

(** X12.  A chat prompt of a single message without a "content" key makes
    the shortcut raise [KeyError]; the role is not looked at. *)
Theorem single_message_without_content (m : gmap string field) :
  m !! "content" = None →
  chat_prompt_to_text_prompt capitalize (chat [m]) = Raise KeyError.
Proof.
  intros Hc. unfold chat_prompt_to_text_prompt, chat. cbn. by rewrite Hc.
Qed.

(** X13.  [CompletionPrompt.to_openai_create_prompt] returns every raw
    prompt that is not a chat prompt as it is; on a chat prompt it
    returns a value or raises [KeyError] or [AttributeError].  The
    assertion of the renderer is never what it raises. *)
Theorem completion_prompt_outcomes (raw_prompt : pyval) :
  (is_chat_prompt raw_prompt = false
   ∧ CompletionPrompt.to_openai_create_prompt capitalize raw_prompt
     = Ok raw_prompt)
  ∨ (is_chat_prompt raw_prompt = true
     ∧ ((∃ v, CompletionPrompt.to_openai_create_prompt capitalize raw_prompt
              = Ok v)
        ∨ CompletionPrompt.to_openai_create_prompt capitalize raw_prompt
          = Raise KeyError
        ∨ CompletionPrompt.to_openai_create_prompt capitalize raw_prompt
          = Raise AttributeError)).
Proof.
  unfold CompletionPrompt.to_openai_create_prompt,
    CompletionPrompt._render_chat_prompt_as_text.
  destruct (is_chat_prompt raw_prompt) eqn:E; [right|by left].
  split; [done|].
  apply is_chat_prompt_inv in E as [msgs ->].
  destruct (decide (length msgs = 1%nat)) as [Hlen|Hlen].
  - destruct msgs as [|m [|? ?]]; try discriminate.
    destruct (m !! "content") as [c|] eqn:Hc.
    + left. exists (inject c). by apply single_message_shortcut.
    + right. left. unfold chat_prompt_to_text_prompt, chat. cbn.
      by rewrite Hc.
  - rewrite chat_prompt_to_text_prompt_loop by done.
    destruct (decide (Forall renderable msgs)) as [Hall|Hno].
    + left. destruct (render_loop_ok capitalize msgs Hall []) as [lines ->].
      cbn. eauto.
    + apply not_Forall_Exists in Hno; [|apply _]. right.
      destruct (render_loop_raise capitalize msgs Hno []) as [-> | ->];
        [by right|by left].
Qed.

(** X14.  The two classes undo each other on text: a string wrapped by
    [ChatCompletionPrompt.to_openai_create_prompt] and rendered by
    [CompletionPrompt.to_openai_create_prompt] is the string again, as
    is a string given to [CompletionPrompt.to_openai_create_prompt]
    directly. *)
Theorem classes_roundtrip_on_text (s : string) :
  ChatCompletionPrompt.to_openai_create_prompt (PStr s)
    ≫= CompletionPrompt.to_openai_create_prompt capitalize
  = Ok (PStr s)
  ∧ CompletionPrompt.to_openai_create_prompt capitalize (PStr s)
    = Ok (PStr s).
Proof.
  split; [|reflexivity].
  change (chat_prompt_to_text_prompt capitalize
            (chat [{[ "role" := FStr "system"; "content" := FStr s ]}])
          = Ok (PStr s)).
  apply (single_message_shortcut _ _ (FStr s)).
  by rewrite lookup_insert_ne, lookup_singleton_eq.
Qed.

End RenderShape.

(** ** The further properties at concrete prompts *)

Lemma prepared_examples :
  _prepare_chat_prompt (PDict <$> [msg_user_hi; msg_tool_calc; msg_to_user])
  = Ok [PDict msg_user_hi;
        PDict {[ "role" := FStr "assistant";
                 "content" := FStr "Tool (calc): 4" ]};
        PDict {[ "role" := FStr "assistant";
                 "content" := FStr "To user: hi" ]}].
Proof. vm_compute. reflexivity. Defined.

Lemma rendered_examples :
  chat_prompt_to_text_prompt ascii_capitalize
    (chat [msg_user_hi; msg_assistant_hello])
  = Ok (PStr ("User: Hi" +:+ nl +:+ "Assistant: HelloAssistant: ")).
Proof. vm_compute. reflexivity. Defined.

Lemma normalized_prompt_has_no_tool_message_holds :
  ∃ m,
    PDict {[ "role" := FStr "assistant"; "content" := FStr "Tool (calc): 4" ]}
    = PDict m
    ∧ m !! "role" ≠ Some (FStr "tool")
    ∧ ∀ r, ¬ (m !! "role" = Some (FStr "assistant")
              ∧ m !! "recipient" = Some (FStr r)).
Proof.
  apply (normalized_prompt_has_no_tool_message _ _ _ prepared_examples).
  apply list_elem_of_In. cbn. auto.
Defined.

Lemma prepare_chat_prompt_idempotent_holds :
  _prepare_chat_prompt
    [PDict msg_user_hi;
     PDict {[ "role" := FStr "assistant";
              "content" := FStr "Tool (calc): 4" ]};
     PDict {[ "role" := FStr "assistant"; "content" := FStr "To user: hi" ]}]
  = Ok [PDict msg_user_hi;
        PDict {[ "role" := FStr "assistant";
                 "content" := FStr "Tool (calc): 4" ]};
        PDict {[ "role" := FStr "assistant";
                 "content" := FStr "To user: hi" ]}].
Proof. exact (prepare_chat_prompt_idempotent _ _ prepared_examples). Defined.

Lemma normalizer_only_prefixes_content_holds :
  Forall preparable [msg_user_hi; msg_tool_calc; msg_to_user]
  ∧ ∃ out,
      _prepare_chat_prompt (PDict <$> [msg_user_hi; msg_tool_calc; msg_to_user])
      = Ok out
      ∧ ∃ m' p, out !! 2%nat = Some (PDict m')
                ∧ m' !! "content" = Some (FStr (p +:+ "hi")).
Proof.
  split; [exact preparable_examples|].
  destruct (normalizer_only_prefixes_content
              [msg_user_hi; msg_tool_calc; msg_to_user] preparable_examples)
    as (out & Hout & Hat).
  exists out. split; [exact Hout|].
  apply (Hat 2%nat msg_to_user "hi"); vm_compute; reflexivity.
Defined.

Lemma tool_message_with_none_name_holds :
  _prepare_chat_prompt
    [PDict {[ "role" := FStr "tool"; "name" := FNone; "content" := FStr "4" ]}]
  = Ok [PDict {[ "role" := FStr "assistant"; "content" := FStr "4" ]}].
Proof.
  apply (tool_message_with_none_name
           {[ "role" := FStr "tool"; "name" := FNone; "content" := FStr "4" ]}
           "4"); vm_compute; reflexivity.
Defined.

Lemma rendered_text_ends_with_marker_holds :
  ∃ t, PStr ("User: Hi" +:+ nl +:+ "Assistant: HelloAssistant: ")
       = PStr (t +:+ "Assistant: ").
Proof.
  apply (rendered_text_ends_with_marker ascii_capitalize
           [msg_user_hi; msg_assistant_hello]);
    [cbn; lia|exact rendered_examples].
Defined.

Lemma rendered_text_has_no_leading_space_holds :
  ∃ s, PStr ("User: Hi" +:+ nl +:+ "Assistant: HelloAssistant: ") = PStr s
       ∧ starts_with_space s = false.
Proof.
  apply (rendered_text_has_no_leading_space ascii_capitalize
           [msg_user_hi; msg_assistant_hello]);
    [cbn; lia|exact rendered_examples].
Defined.

Lemma plain_message_prefix_holds :
  render_line ascii_capitalize (PDict msg_user_hi) = Ok "User: Hi".
Proof.
  pose proof (plain_message_prefix ascii_capitalize msg_user_hi "Hi"
                eq_refl eq_refl eq_refl) as (_ & Huser & _).
  exact (Huser eq_refl).
Defined.

Lemma none_entry_rendered_as_absent_holds :
  render_line ascii_capitalize
    (PDict {[ "role" := FStr "user"; "name" := FNone; "content" := FStr "Hi" ]})
  = render_line ascii_capitalize
      (PDict (delete "name"
                {[ "role" := FStr "user"; "name" := FNone;
                   "content" := FStr "Hi" ]})).
Proof.
  apply (none_entry_rendered_as_absent ascii_capitalize
           {[ "role" := FStr "user"; "name" := FNone; "content" := FStr "Hi" ]}
           "name"); [by left|vm_compute; reflexivity].
Defined.

Lemma single_message_without_content_holds :
  chat_prompt_to_text_prompt ascii_capitalize
    (chat [{[ "role" := FStr "user" ]}])
  = Raise KeyError.
Proof.
  apply (single_message_without_content ascii_capitalize
           {[ "role" := FStr "user" ]}).
  vm_compute; reflexivity.
Defined.

(** ** The renderer, line by line *)

Section RenderLines.

Variable capitalize : string -> string.

Lemma render_loop_lines msgs :
  Forall renderable msgs →
  ∀ lines, ∃ lines',
    render_loop capitalize lines (PDict <$> msgs) = Ok (lines ++ lines')%list
    ∧ Forall2 (λ m line, render_line capitalize (PDict m) = Ok line)
        msgs lines'.
Proof.
  induction 1 as [|m msgs Hm _ IH]; intros lines.
  - exists []. by rewrite app_nil_r.
  - destruct (render_line_ok capitalize m Hm) as [line Hline].
    destruct (IH (lines ++ [line])%list) as (lines' & Hloop & Hall).
    exists (line :: lines'). split; [|by constructor].
    rewrite fmap_cons, render_loop_cons, Hline. cbn.
    by rewrite Hloop, <- app_assoc.
Qed.

(** X15.  On a chat prompt that is not a single message and whose
    messages all have a string role and a content, the renderer returns
    one line per message, in the order of the messages, joined by
    newlines, with "Assistant: " appended and leading white space
    removed. *)
Theorem rendered_text_line_by_line (msgs : list (gmap string field)) :
  length msgs ≠ 1%nat →
  Forall renderable msgs →
  ∃ lines,
    Forall2 (λ m line, render_line capitalize (PDict m) = Ok line) msgs lines
    ∧ chat_prompt_to_text_prompt capitalize (chat msgs)
      = Ok (PStr (lstrip (join nl lines +:+ "Assistant: "))).
Proof.
  intros Hlen Hall.
  destruct (render_loop_lines msgs Hall []) as (lines & Hloop & Hrel).
  exists lines. split; [exact Hrel|].
  rewrite chat_prompt_to_text_prompt_loop by done. by rewrite Hloop.
Qed.

End RenderLines.

(** ** Normalizing before rendering *)

Lemma appended_renderable m x :
  renderable m → appended_for m x → ∃ m', x = PDict m' ∧ renderable m'.
Proof.
  intros Hm. unfold appended_for, prepare_step. cbn.
  destruct (m !! "role") as [role|] eqn:Hr; [|done]. cbn.
  destruct (m !! "content") as [content|] eqn:Hc; [|done]. cbn.
  assert (renderable {[ "role" := FStr "assistant"; "content" := FStr "" ]}
          ∧ ∀ c, renderable
                   {[ "role" := FStr "assistant"; "content" := FStr c ]})
    as [_ Hnew].
  { split; [|intros c]; (split; [by exists "assistant"|by eexists]). }
  destruct (field_eqb role "tool"); [intros [= <-]; eauto|].
  destruct (field_eqb role "assistant"); [|intros [= <-]; eauto].
  destruct (default FNone (m !! "recipient")); intros [= <-]; eauto.
Qed.

(** X16.  Normalizing keeps a prompt renderable: when every message has a
    string role and a content, [_prepare_chat_prompt] returns messages
    that all have a string role and a content. *)
Theorem normalizer_keeps_renderable (msgs : list (gmap string field)) :
  Forall renderable msgs →
  ∃ msgs',
    _prepare_chat_prompt (PDict <$> msgs) = Ok (PDict <$> msgs')
    ∧ length msgs' = length msgs
    ∧ Forall renderable msgs'.
Proof.
  intros Hall.
  assert (Forall preparable msgs) as Hp.
  { eapply Forall_impl; [exact Hall|]. intros m [[r Hr] Hc].
    split; [by exists (FStr r)|done]. }
  destruct (prepare_chat_prompt_spec msgs Hp) as (out & -> & Hrel).
  clear Hp. induction Hrel as [|m x msgs out Hx _ IH].
  - by exists [].
  - apply Forall_cons in Hall as [Hm Hall].
    destruct (IH Hall) as (msgs' & [= ->] & Hlen & Hall').
    destruct (appended_renderable m x Hm Hx) as (m' & -> & Hm').
    exists (m' :: msgs'). split; [done|]. split; [cbn; by rewrite Hlen|].
    by constructor.
Qed.

Lemma rendered_text_line_by_line_holds :
  ∃ lines,
    Forall2 (λ m line, render_line ascii_capitalize (PDict m) = Ok line)
      [msg_user_hi; msg_assistant_hello] lines
    ∧ chat_prompt_to_text_prompt ascii_capitalize
        (chat [msg_user_hi; msg_assistant_hello])
      = Ok (PStr (lstrip (join nl lines +:+ "Assistant: "))).
Proof.
  apply (rendered_text_line_by_line ascii_capitalize
           [msg_user_hi; msg_assistant_hello]);
    [cbn; lia|exact renderable_examples].
Defined.

Lemma normalizer_keeps_renderable_holds :
  ∃ msgs',
    _prepare_chat_prompt (PDict <$> [msg_user_hi; msg_assistant_hello])
    = Ok (PDict <$> msgs')
    ∧ length msgs' = length [msg_user_hi; msg_assistant_hello]
    ∧ Forall renderable msgs'.
Proof.
  exact (normalizer_keeps_renderable
           [msg_user_hi; msg_assistant_hello] renderable_examples).
Defined.
